(** * enchannel-zmq-backend: the channel multiplexer of [src/index.ts]

    A shallow embedding of the address resolver ([formConnectionString]),
    the socket factory ([createSocket], [verifiedConnect]) and the
    multiplexer ([createMainChannelFromSockets]) together with the
    properties the specification states about them.

    Conventions.  JavaScript objects used as dictionaries are finite maps
    [gmap string _]; the calls made on the [jmp] transport module are
    recorded in a trace; the sockets handed to the multiplexer are records
    of the observable state of each socket (listeners, calls received).
    The rxjs building blocks the source composes are represented by their
    effect on the state of the subject: a subscriber made by
    [Subscriber.create] runs its handlers until it is stopped, and
    [publish(), refCount()] over [fromEvent] keeps the handler of the
    source on the sockets while there is a subscriber. *)

From Stdlib Require Import ZArith.
From stdpp Require Import gmap strings list fin_maps pretty.

Open Scope string_scope.
Open Scope list_scope.

#[local] Set Warnings "-clear-no-such-hyp".

(** ** Channel names, errors and completions *)

Inductive ChannelName := iopub | stdin | shell | control.

#[global] Instance ChannelName_eq_dec : EqDecision ChannelName.
Proof. solve_decision. Defined.

(** The string a [ChannelName] stands for in the source. *)
Definition ChannelName_str (channel : ChannelName) : string :=
  match channel with
  | iopub => "iopub"
  | stdin => "stdin"
  | shell => "shell"
  | control => "control"
  end.

Definition channel_names : list string := ChannelName_str <$> [shell; control; stdin; iopub].

(** [new Error(`Port not found for channel ...`)] is the only error the
    repository's own code raises; [TransportError] stands for whatever the
    transport library throws from [send]. *)
Inductive Error :=
| PortNotFound (channel : ChannelName)
| TransportError.

Inductive Completion (A : Type) :=
| Return (a : A)
| Throw (e : Error).
Arguments Return {A} a.
Arguments Throw {A} e.

Definition throws {A} (c : Completion A) : bool :=
  match c with Return _ => false | Throw _ => true end.

(** ** Connection information *)

(** [JupyterConnectionInfo].  A port is a JavaScript number or is missing
    from the object ([None], reading it gives [undefined]); the ports that
    occur are integers. *)
Record JupyterConnectionInfo := {
  version : Z;
  iopub_port : option Z;
  shell_port : option Z;
  stdin_port : option Z;
  control_port : option Z;
  signature_scheme : string;
  hb_port : option Z;
  ip : string;
  key : string;
  transport : string
}.

(** [ZMQType.frontend[channel]] *)
Definition ZMQType_frontend (channel : ChannelName) : string :=
  match channel with
  | iopub => "sub"
  | stdin => "dealer"
  | shell => "dealer"
  | control => "dealer"
  end.

(** [config[`${channel}_port`]] *)
Definition config_port (config : JupyterConnectionInfo) (channel : ChannelName) : option Z :=
  match channel with
  | iopub => iopub_port config
  | stdin => stdin_port config
  | shell => shell_port config
  | control => control_port config
  end.

(** [!port] for a number that may be [undefined]: true for [undefined] and
    for [0]. *)
Definition not_port (port : option Z) : bool :=
  match port with
  | None => true
  | Some p => bool_decide (p = 0%Z)
  end.

(** [`${port}`] for an integer: its decimal digits, with a sign when
    negative (JavaScript prints integers so below 10^21, far above any
    port). *)
Definition Number_toString (p : Z) : string := pretty p.

Definition formConnectionString (config : JupyterConnectionInfo) (channel : ChannelName)
  : Completion string :=
  let portDelimiter := if bool_decide (transport config = "tcp") then ":" else "-" in
  let port := config_port config channel in
  if not_port port then Throw (PortNotFound channel)
  else Return (transport config +:+ "://" +:+ ip config +:+ portDelimiter
               +:+ from_option Number_toString "undefined" port).

(** ** The socket factory over a trace of transport calls *)

(** A socket of the transport library is named by the order of its
    construction. *)
Definition SocketRef := nat.

Inductive JmpCall :=
| new_Socket (socket : SocketRef) (socketType scheme key : string)
| set_identity (socket : SocketRef) (identity : string)
| on (socket : SocketRef) (event : string)
| monitor (socket : SocketRef)
| connect (socket : SocketRef) (url : string).

#[global] Instance JmpCall_eq_dec : EqDecision JmpCall.
Proof. solve_decision. Defined.

Definition is_new_Socket (c : JmpCall) : bool :=
  match c with new_Socket _ _ _ _ => true | _ => false end.

Definition is_connect (c : JmpCall) : bool :=
  match c with connect _ _ => true | _ => false end.

(** The sockets constructed so far. *)
Definition constructed (trace : list JmpCall) : nat :=
  length (filter (λ c, is_new_Socket c = true) trace).

(** Code that calls into [jmp] and may throw: the trace of calls made so
    far is threaded through, and survives a throw. *)
Definition Jmp (A : Type) : Type := list JmpCall → list JmpCall * Completion A.

Definition jret {A} (a : A) : Jmp A := λ t, (t, Return a).

Definition jbind {A B} (m : Jmp A) (k : A → Jmp B) : Jmp B :=
  λ t, match m t with
       | (t', Return a) => k a t'
       | (t', Throw e) => (t', Throw e)
       end.

Definition jlift {A} (c : Completion A) : Jmp A := λ t, (t, c).

Definition jcall (c : JmpCall) : Jmp unit := λ t, (t ++ [c], Return ()).

#[global] Instance Jmp_ret : MRet Jmp := @jret.
#[global] Instance Jmp_bind : MBind Jmp := λ A B k m, jbind m k.

(** [new jmp.Socket(zmqType, scheme, key)] *)
Definition jmp_Socket (socketType scheme key : string) : Jmp SocketRef :=
  λ t, let socket := constructed t in
       (t ++ [new_Socket socket socketType scheme key], Return socket).

(** [s.slice(start)] for [start] not negative. *)
Definition String_slice (start : nat) (s : string) : string :=
  String.substring start (String.length s - start) s.

(** The promise [verifiedConnect] returns resolves to its socket when the
    socket reports "connect"; the promise is represented by that socket.
    The executor of the promise runs at once. *)
Definition verifiedConnect (socket : SocketRef) (url : string) : Jmp SocketRef :=
  jcall (on socket "connect");;
  jcall (monitor socket);;
  jcall (connect socket url);;
  mret socket.

Definition createSocket (channel : ChannelName) (identity : string)
    (config : JupyterConnectionInfo) : Jmp SocketRef :=
  let zmqType := ZMQType_frontend channel in
  let scheme := String_slice (String.length "hmac-") (signature_scheme config) in
  socket ← jmp_Socket zmqType scheme (key config);
  jcall (set_identity socket identity);;
  url ← jlift (formConnectionString config channel);
  verifiedConnect socket url.

(** The four calls an invocation of [createSockets] makes before it awaits
    their promises, in the order of the array literal. *)
Definition createSockets_calls (config : JupyterConnectionInfo) (identity : string)
  : Jmp (list SocketRef) :=
  shell_s ← createSocket shell identity config;
  control_s ← createSocket control identity config;
  stdin_s ← createSocket stdin identity config;
  iopub_s ← createSocket iopub identity config;
  mret [shell_s; control_s; stdin_s; iopub_s].

Definition example_config (ports : ChannelName → option Z) (tr host : string)
  : JupyterConnectionInfo :=
  {| version := 5;
     iopub_port := ports iopub;
     shell_port := ports shell;
     stdin_port := ports stdin;
     control_port := ports control;
     signature_scheme := "hmac-sha256";
     hb_port := Some 9004%Z;
     ip := host;
     key := "5ca1ab1e-c0da-aced-cafe-c0ffeefacade";
     transport := tr |}.

(** ** Messages *)

(** JavaScript values carried by messages. *)
#[local] Unset Elimination Schemes.
Inductive JSValue :=
| JSUndefined
| JSNull
| JSBoolean (b : bool)
| JSNumber (n : Z)
| JSString (s : string)
| JSArray (items : list JSValue)
| JSObject (properties : list (string * JSValue)).
#[local] Set Elimination Schemes.

(** [{ ...a, ...b }]: the properties of [a], overwritten by those of [b]. *)
Definition spread (a b : gmap string JSValue) : gmap string JSValue := b ∪ a.

Record HeaderFiller := {
  session : string;
  username : string
}.

Definition HeaderFiller_object (h : HeaderFiller) : gmap string JSValue :=
  {[ "session" := JSString (session h); "username" := JSString (username h) ]}.

(** A [JupyterMessage] given to the sink.  [channel] is [None] when the
    object has no such property. *)
Record JupyterMessage := {
  header : gmap string JSValue;
  parent_header : JSValue;
  metadata : JSValue;
  content : JSValue;
  channel : option string;
  buffers : JSValue
}.

(** What the caller passes to [next]: an object, or no object at all. *)
Inductive SinkValue :=
| undefined
| null
| object (m : JupyterMessage).

Module jmp.
(** [new jmp.Message(properties)], kept as the properties the source
    passes to the constructor of the transport library. *)
Record Message := {
  header : gmap string JSValue;
  parent_header : JSValue;
  content : JSValue;
  metadata : JSValue;
  buffers : JSValue
}.
End jmp.

(** ** Sockets as the multiplexer sees them *)

Inductive Listener :=
| fromEvent_message
| listener (event : string) (id : nat).

#[global] Instance Listener_eq_dec : EqDecision Listener.
Proof. solve_decision. Defined.

(** The observable state of one socket: the listeners attached to it, the
    arguments of the calls of [send] (all of them, and those that
    returned), the calls of [removeAllListeners] and of [close], and
    whether the object has a [close] property at all. *)
Record Socket := {
  listeners : list Listener;
  send_calls : list jmp.Message;
  sent : list jmp.Message;
  removeAllListeners_calls : nat;
  has_close : bool;
  close_calls : nat
}.

Inductive ConsoleCall :=
| console_warn (text : string) (message : SinkValue)
| console_error (text : string) (err : Error) (message : SinkValue).

(** The state behind the subject [createMainChannelFromSockets] returns:
    the sockets and header it closes over, the [isStopped] flag of the
    subscriber [outgoingMessages], the subscribers that the [refCount] of
    [incomingMessages] counts, and the console.  [sockets[name]] is the
    lookup of the map: the object is used as a dictionary of its own
    properties. *)
Record Channels := {
  sockets : gmap string Socket;
  session_header : HeaderFiller;
  isStopped : bool;
  subscribers : nat;
  console : list ConsoleCall
}.

Definition with_sockets (st : Channels) (s : gmap string Socket) : Channels :=
  {| sockets := s; session_header := session_header st; isStopped := isStopped st;
     subscribers := subscribers st; console := console st |}.

Definition with_isStopped (st : Channels) (b : bool) : Channels :=
  {| sockets := sockets st; session_header := session_header st; isStopped := b;
     subscribers := subscribers st; console := console st |}.

Definition with_subscribers (st : Channels) (n : nat) : Channels :=
  {| sockets := sockets st; session_header := session_header st; isStopped := isStopped st;
     subscribers := n; console := console st |}.

Definition log (c : ConsoleCall) (st : Channels) : Channels :=
  {| sockets := sockets st; session_header := session_header st; isStopped := isStopped st;
     subscribers := subscribers st; console := console st ++ [c] |}.

(** [socket.removeAllListeners()] *)
Definition Socket_removeAllListeners (socket : Socket) : Socket :=
  {| listeners := []; send_calls := send_calls socket; sent := sent socket;
     removeAllListeners_calls := S (removeAllListeners_calls socket);
     has_close := has_close socket; close_calls := close_calls socket |}.

(** [socket.close()] *)
Definition Socket_close (socket : Socket) : Socket :=
  {| listeners := listeners socket; send_calls := send_calls socket; sent := sent socket;
     removeAllListeners_calls := removeAllListeners_calls socket;
     has_close := has_close socket; close_calls := S (close_calls socket) |}.

Definition with_listeners (socket : Socket) (l : list Listener) : Socket :=
  {| listeners := l; send_calls := send_calls socket; sent := sent socket;
     removeAllListeners_calls := removeAllListeners_calls socket;
     has_close := has_close socket; close_calls := close_calls socket |}.

(** [fromEvent(socket, "message")] is subscribed to: its handler is added. *)
Definition Socket_on_message (socket : Socket) : Socket :=
  with_listeners socket (listeners socket ++ [fromEvent_message]).

(** ... and unsubscribed from: its handler is removed again. *)
Definition Socket_off_message (socket : Socket) : Socket :=
  with_listeners socket (filter (λ l, l ≠ fromEvent_message) (listeners socket)).

Section Multiplexer.

(** Whether [send] of the socket of a channel, in a given state, throws
    on a given message is up to the transport. *)
Variable send_throws : string → Socket → jmp.Message → bool.

(** [socket.send(jMessage)] *)
Definition Socket_send (name : string) (jMessage : jmp.Message) (socket : Socket)
  : Socket * Completion unit :=
  let called (ok : bool) :=
    {| listeners := listeners socket;
       send_calls := send_calls socket ++ [jMessage];
       sent := if ok then sent socket ++ [jMessage] else sent socket;
       removeAllListeners_calls := removeAllListeners_calls socket;
       has_close := has_close socket; close_calls := close_calls socket |} in
  if send_throws name socket jMessage then (called false, Throw TransportError)
  else (called true, Return ()).

(** The properties given to [new jmp.Message] (lines 214-221), for the
    header [filler] the multiplexer was created with. *)
Definition jMessage_of (message : JupyterMessage) (filler : HeaderFiller) : jmp.Message :=
  {| jmp.header := spread (header message) (HeaderFiller_object filler);
     jmp.parent_header := parent_header message;
     jmp.content := content message;
     jmp.metadata := metadata message;
     jmp.buffers := buffers message |}.

(** The body of the [try] block (lines 214-222). *)
Definition try_send (m : JupyterMessage) (name : string) (socket : Socket)
    (st : Channels) : Channels * Completion unit :=
  let jMessage := jMessage_of m (session_header st) in
  let '(socket', result) := Socket_send name jMessage socket in
  (with_sockets st (<[name := socket']> (sockets st)), result).

(** The [next] handler of [outgoingMessages] (lines 199-226). *)
Definition outgoingMessages_next (message : SinkValue) (st : Channels)
  : Channels * Completion unit :=
  let no_channel :=
    (log (console_warn "message sent without a channel" message) st, Return ()) in
  match message with
  | undefined | null => no_channel
  | object m =>
    match channel m with
    | None => no_channel
    | Some name =>
      if bool_decide (name = "") then no_channel
      else
        match sockets st !! name with
        | None =>
          (log (console_warn "channel not understood for message" message) st, Return ())
        | Some socket =>
          match try_send m name socket st with
          | (st', Return _) => (st', Return ())
          | (st', Throw err) =>
            (log (console_error "Error sending message" err message) st', Return ())
          end
        end
    end
  end.

(** The body of the [forEach] of the [complete] handler (lines 232-236). *)
Definition teardown (socket : Socket) : Socket :=
  let socket := Socket_removeAllListeners socket in
  if has_close socket then Socket_close socket else socket.

(** The [complete] handler of [outgoingMessages] (lines 228-237). *)
Definition outgoingMessages_complete (st : Channels) : Channels :=
  with_sockets st (teardown <$> sockets st).

(** [subject.next(message)]: the subject hands the value to
    [outgoingMessages], a subscriber, which runs its handler unless it has
    been stopped; a handler that throws would have the subscriber
    unsubscribed, which stops it. *)
Definition Subject_next (message : SinkValue) (st : Channels) : Channels :=
  if isStopped st then st
  else
    match outgoingMessages_next message st with
    | (st', Return _) => st'
    | (st', Throw _) => with_isStopped st' true
    end.

(** [subject.complete()]: the subscriber stops, then runs its handler,
    unless it has been stopped before. *)
Definition Subject_complete (st : Channels) : Channels :=
  if isStopped st then st else outgoingMessages_complete (with_isStopped st true).

(** [subject.subscribe(observer)] subscribes to [incomingMessages]; its
    [refCount] connects the merged [fromEvent] sources on the first
    subscriber. *)
Definition Subject_subscribe (st : Channels) : Channels :=
  match subscribers st with
  | O => with_subscribers (with_sockets st (Socket_on_message <$> sockets st)) 1
  | S n => with_subscribers st (S (S n))
  end.

(** A subscriber of [incomingMessages] unsubscribes; [refCount]
    disconnects the [fromEvent] sources with the last one. *)
Definition Subject_unsubscribe (st : Channels) : Channels :=
  match subscribers st with
  | O => st
  | S O => with_subscribers (with_sockets st (Socket_off_message <$> sockets st)) 0
  | S (S n) => with_subscribers st (S n)
  end.

(** The function given to [map] (lines 253-260). *)
Definition incoming (name : string) (body : gmap string JSValue) : gmap string JSValue :=
  let msg := <["channel" := JSString name]> body in
  delete "idents" msg.

(** The socket [name] emits "message" with [body]: what each subscriber of
    the subject receives. *)
Definition Socket_emit_message (name : string) (body : gmap string JSValue)
    (st : Channels) : list (gmap string JSValue) :=
  match sockets st !! name with
  | Some socket =>
    if bool_decide (fromEvent_message ∈ listeners socket)
    then replicate (subscribers st) (incoming name body)
    else []
  | None => []
  end.

Definition createMainChannelFromSockets (sockets : gmap string Socket)
    (header : HeaderFiller) : Channels :=
  {| sockets := sockets; session_header := header; isStopped := false;
     subscribers := 0; console := [] |}.

(** What a caller can do with the subject. *)
Inductive Action :=
| next (message : SinkValue)
| complete
| subscribe
| unsubscribe.

Definition step (st : Channels) (a : Action) : Channels :=
  match a with
  | next message => Subject_next message st
  | complete => Subject_complete st
  | subscribe => Subject_subscribe st
  | unsubscribe => Subject_unsubscribe st
  end.

Definition run (actions : list Action) (st : Channels) : Channels :=
  foldl step st actions.

End Multiplexer.

(** What later behaviour of the subject depends on: everything but the
    console. *)
Definition channel_state (st : Channels)
  : gmap string Socket * HeaderFiller * bool * nat :=
  (sockets st, session_header st, isStopped st, subscribers st).


(** ** The rest of the factory: four sockets and their connections *)

(** The calls [createSocket] makes for a socket it connects to [url]. *)
Definition socket_calls (channel : ChannelName) (identity : string)
    (config : JupyterConnectionInfo) (socket : SocketRef) (url : string) : list JmpCall :=
  [new_Socket socket (ZMQType_frontend channel)
     (String_slice (String.length "hmac-") (signature_scheme config)) (key config);
   set_identity socket identity;
   on socket "connect"; monitor socket; connect socket url].

(** The sockets told to connect so far. *)
Definition connects (t : list JmpCall) : nat :=
  length (filter (λ c, is_connect c = true) t).

(** The array [createSockets] destructures (line 157). *)
Record FourSockets := {
  shell_socket : SocketRef;
  control_socket : SocketRef;
  stdin_socket : SocketRef;
  iopub_socket : SocketRef
}.

Definition creation_order : list ChannelName := [shell; control; stdin; iopub].

(** The array literal of lines 158-161: the four calls of [createSocket],
    made in order before anything is awaited. *)
Definition createSockets_begin (config : JupyterConnectionInfo) (identity : string)
  : Jmp FourSockets :=
  shell_s ← createSocket shell identity config;
  control_s ← createSocket control identity config;
  stdin_s ← createSocket stdin identity config;
  iopub_s ← createSocket iopub identity config;
  mret {| shell_socket := shell_s; control_socket := control_s;
          stdin_socket := stdin_s; iopub_socket := iopub_s |}.

(** What is called on a socket after the synchronous part: [unmonitor] by
    the listener of [verifiedConnect] (line 99) and [subscribe] by
    [createSockets] (line 165). *)
Inductive SocketCall :=
| unmonitor (socket : SocketRef)
| zmq_subscribe (socket : SocketRef) (topic : string).

#[global] Instance SocketCall_eq_dec : EqDecision SocketCall.
Proof. solve_decision. Defined.

Definition is_zmq_subscribe (c : SocketCall) : bool :=
  match c with zmq_subscribe _ _ => true | unmonitor _ => false end.

Inductive Promise (A : Type) :=
| Pending
| Fulfilled (a : A)
| Rejected (e : Error).
Arguments Pending {A}.
Arguments Fulfilled {A} a.
Arguments Rejected {A} e.

(** An invocation of [createSockets]: the calls made so far, the sockets
    whose promises [Promise.all] waits for ([None] when the array literal
    threw), the sockets whose promise has resolved, and the promise that
    [createSockets] returned. *)
Record Creation := {
  calls : list JmpCall;
  later_calls : list SocketCall;
  awaited : option FourSockets;
  topic : string;
  connected : list SocketRef;
  outcome : Promise (gmap string SocketRef)
}.

(** [{ shell, control, stdin, iopub }] (lines 167-172). *)
Definition sockets_object (four : FourSockets) : gmap string SocketRef :=
  {[ "shell" := shell_socket four; "control" := control_socket four;
     "stdin" := stdin_socket four; "iopub" := iopub_socket four ]}.

(** [Promise.all] resolves once each of the four promises has. *)
Definition all_connected (four : FourSockets) (connected : list SocketRef) : bool :=
  bool_decide (shell_socket four ∈ connected)
  && bool_decide (control_socket four ∈ connected)
  && bool_decide (stdin_socket four ∈ connected)
  && bool_decide (iopub_socket four ∈ connected).

(** [createSockets(config, subscription, identity)] up to its [await]: an
    error thrown by the array literal rejects the promise of the async
    function. *)
Definition createSockets (config : JupyterConnectionInfo) (subscription identity : string)
    (t : list JmpCall) : Creation :=
  match createSockets_begin config identity t with
  | (t', Return four) =>
    {| calls := t'; later_calls := []; awaited := Some four; topic := subscription;
       connected := []; outcome := Pending |}
  | (t', Throw e) =>
    {| calls := t'; later_calls := []; awaited := None; topic := subscription;
       connected := []; outcome := Rejected e |}
  end.

(** A socket emits "connect".  The listener [verifiedConnect] registered
    (lines 97-101), which stays registered, calls [unmonitor] and resolves
    the promise of the socket; when that makes the fourth of the awaited
    promises resolved, [createSockets] resumes: it subscribes the iopub
    socket to the topic and fulfils its promise (lines 165-172). *)
Definition emit_connect (st : Creation) (socket : SocketRef) : Creation :=
  if bool_decide (on socket "connect" ∈ calls st) then
    let later := later_calls st ++ [unmonitor socket] in
    let resolved := socket :: connected st in
    match outcome st, awaited st with
    | Pending, Some four =>
      if all_connected four resolved then
        {| calls := calls st;
           later_calls := later ++ [zmq_subscribe (iopub_socket four) (topic st)];
           awaited := awaited st; topic := topic st; connected := resolved;
           outcome := Fulfilled (sockets_object four) |}
      else
        {| calls := calls st; later_calls := later; awaited := awaited st;
           topic := topic st; connected := resolved; outcome := outcome st |}
    | _, _ =>
      {| calls := calls st; later_calls := later; awaited := awaited st;
         topic := topic st; connected := resolved; outcome := outcome st |}
    end
  else st.

(** The calls of [subscribe] made so far. *)
Definition subscribes (st : Creation) : list SocketCall :=
  filter (λ c, is_zmq_subscribe c = true) (later_calls st).

(** [createSockets] has resumed exactly when the four promises have
    resolved, and has then subscribed the iopub socket, once. *)
Definition creation_inv (four : FourSockets) (st : Creation) : Prop :=
  awaited st = Some four
  ∧ if all_connected four (connected st)
    then outcome st = Fulfilled (sockets_object four)
         ∧ subscribes st = [zmq_subscribe (iopub_socket four) (topic st)]
    else outcome st = Pending ∧ subscribes st = [].

(** The state of a socket the factory has made and that has connected, as
    the multiplexer receives it: nothing sent yet, and the listener of
    [verifiedConnect] still attached. *)
Definition connected_socket (socket : SocketRef) : Socket :=
  {| listeners := [listener "connect" socket]; send_calls := []; sent := [];
     removeAllListeners_calls := 0; has_close := true; close_calls := 0 |}.

(** [createMainChannel] (lines 126-139): the subject over the sockets of
    [createSockets], once these are there. *)
Definition createMainChannel (creation : Creation) (header : HeaderFiller)
  : Promise Channels :=
  match outcome creation with
  | Pending => Pending
  | Fulfilled sockets =>
    Fulfilled (createMainChannelFromSockets (connected_socket <$> sockets) header)
  | Rejected e => Rejected e
  end.

(** ** The user name *)

(** [a || b] for [a] a string or [undefined]: [a] unless it is [undefined]
    or empty. *)
Definition or_else (a : option string) (b : string) : string :=
  match a with
  | Some s => if bool_decide (s = "") then b else s
  | None => b
  end.

(** [getUsername] over the environment of the process (lines 106-111): the
    chain of [||] gives its first operand that is neither [undefined] nor
    empty, and its last operand when there is none. *)
Definition getUsername (env : gmap string string) : string :=
  or_else (env !! "LOGNAME")
    (or_else (env !! "USER")
       (or_else (env !! "LNAME")
          (or_else (env !! "USERNAME") "username"))).

(** ** What the sockets have been sent *)

(** A message carries the session and user name of a header. *)
Definition stamped (filler : HeaderFiller) (jMessage : jmp.Message) : Prop :=
  jmp.header jMessage !! "session" = Some (JSString (session filler))
  ∧ jmp.header jMessage !! "username" = Some (JSString (username filler)).

Definition calls_of (st : Channels) : gmap string (list jmp.Message) :=
  send_calls <$> sockets st.

(** ** Concrete configurations, sockets and messages *)

Definition fresh_socket : Socket :=
  {| listeners := []; send_calls := []; sent := []; removeAllListeners_calls := 0;
     has_close := true; close_calls := 0 |}.

Definition four_sockets : gmap string Socket :=
  {[ "shell" := fresh_socket; "control" := fresh_socket;
     "stdin" := fresh_socket; "iopub" := fresh_socket ]}.

Definition example_header : HeaderFiller :=
  {| session := "bf6e2cc6-84f5-4c2f-aa0c-6e6d0ac2c3b1"; username := "rgbkrk" |}.

Definition example_message (tag : option string) : JupyterMessage :=
  {| header := {[ "msg_type" := JSString "kernel_info_request";
                  "session" := JSString "spoofed"; "username" := JSString "mallory" ]};
     parent_header := JSObject [];
     metadata := JSObject [];
     content := JSObject [("foo", JSNumber 1)];
     channel := tag;
     buffers := JSArray [] |}.

Definition example_channels : Channels :=
  createMainChannelFromSockets four_sockets example_header.

Definition never_throws : string → Socket → jmp.Message → bool := λ _ _ _, false.
Definition always_throws : string → Socket → jmp.Message → bool := λ _ _ _, true.

(** * Properties *)

(** ** The address resolver *)

Example formConnectionString_tcp_5555 :
  formConnectionString (example_config (λ _, Some 5555%Z) "tcp" "127.0.0.1") shell
  = Return "tcp://127.0.0.1:5555".
Proof. vm_compute. reflexivity. Qed.

Example createSocket_trace :
  createSocket iopub "id" (example_config (λ _, Some 5555%Z) "tcp" "127.0.0.1") []
  = ([new_Socket 0 "sub" "sha256" "5ca1ab1e-c0da-aced-cafe-c0ffeefacade";
      set_identity 0 "id"; on 0 "connect"; monitor 0;
      connect 0 "tcp://127.0.0.1:5555"], Return 0).
Proof. vm_compute. reflexivity. Qed.

Lemma not_port_true port : not_port port = true ↔ port = None ∨ port = Some 0%Z.
Proof.
  destruct port as [p|]; simpl.
  - rewrite bool_decide_eq_true. split; [intros ->; by right | intros [?| [= ->]]; done].
  - split; [by left | done].
Qed.

Lemma formConnectionString_present config channel p :
  config_port config channel = Some p → p ≠ 0%Z →
  formConnectionString config channel
  = Return (transport config +:+ "://" +:+ ip config
            +:+ (if bool_decide (transport config = "tcp") then ":" else "-")
            +:+ Number_toString p).
Proof.
  intros Hport Hp. unfold formConnectionString. rewrite Hport. simpl.
  by rewrite bool_decide_eq_false_2.
Qed.

(** C4.  When the port of the channel is present and not zero, the address
    is "tcp://" + ip + ":" + port for the tcp transport and
    "ipc://" + ip + "-" + port for the ipc transport; for port 5555 this
    gives "tcp://127.0.0.1:5555" and "ipc:///tmp/x-5555". *)
Theorem formConnectionString_address config channel p :
  config_port config channel = Some p → p ≠ 0%Z →
  (transport config = "tcp" →
   formConnectionString config channel
   = Return ("tcp://" +:+ ip config +:+ ":" +:+ Number_toString p))
  ∧ (transport config = "ipc" →
     formConnectionString config channel
     = Return ("ipc://" +:+ ip config +:+ "-" +:+ Number_toString p))
  ∧ formConnectionString (example_config (λ _, Some 5555%Z) "tcp" "127.0.0.1") channel
    = Return "tcp://127.0.0.1:5555"
  ∧ formConnectionString (example_config (λ _, Some 5555%Z) "ipc" "/tmp/x") channel
    = Return "ipc:///tmp/x-5555".
Proof.
  intros Hport Hp. repeat split.
  - intros Htcp. rewrite (formConnectionString_present _ _ _ Hport Hp), Htcp. reflexivity.
  - intros Hipc. rewrite (formConnectionString_present _ _ _ Hport Hp), Hipc. reflexivity.
  - destruct channel; vm_compute; reflexivity.
  - destruct channel; vm_compute; reflexivity.
Qed.

Lemma formConnectionString_address_witness :
  formConnectionString (example_config (λ _, Some 5555%Z) "tcp" "127.0.0.1") iopub
  = Return ("tcp://" +:+ "127.0.0.1" +:+ ":" +:+ Number_toString 5555).
Proof.
  refine (proj1 (formConnectionString_address
                   (example_config (λ _, Some 5555%Z) "tcp" "127.0.0.1") iopub 5555%Z
                   _ _) _); [reflexivity | lia | reflexivity].
Defined.

(** C5.  For each channel, the resolver throws its configuration error
    exactly when the port of the channel is missing from the config
    (reading it gives undefined) or is zero; otherwise it returns an
    address. *)
Theorem formConnectionString_throws_iff config channel :
  (formConnectionString config channel = Throw (PortNotFound channel)
   ↔ config_port config channel = None ∨ config_port config channel = Some 0%Z)
  ∧ (throws (formConnectionString config channel) = true
     ↔ config_port config channel = None ∨ config_port config channel = Some 0%Z)
  ∧ (¬ (config_port config channel = None ∨ config_port config channel = Some 0%Z)
     → ∃ url, formConnectionString config channel = Return url).
Proof.
  rewrite <- not_port_true. unfold formConnectionString.
  destruct (not_port (config_port config channel)); simpl.
  - repeat split; try done.
  - repeat split; try done. intros _. eauto.
Qed.

Example formConnectionString_missing_ports :
  ∀ channel, formConnectionString (example_config (λ _, None) "tcp" "127.0.0.1") channel
             = Throw (PortNotFound channel).
Proof. by intros []. Qed.

(** ** The socket factory *)

Lemma createSocket_unfold channel identity config t :
  createSocket channel identity config t
  = let socket := constructed t in
    let t1 := t ++ [new_Socket socket (ZMQType_frontend channel)
                      (String_slice 5 (signature_scheme config)) (key config);
                    set_identity socket identity] in
    match formConnectionString config channel with
    | Throw e => (t1, Throw e)
    | Return url =>
      (t1 ++ [on socket "connect"; monitor socket; connect socket url], Return socket)
    end.
Proof.
  unfold createSocket, verifiedConnect, mbind, Jmp_bind, jbind, jmp_Socket, jcall, jlift,
    mret, Jmp_ret, jret. simpl.
  destruct (formConnectionString config channel); simpl.
  - by rewrite <- !app_assoc.
  - by rewrite <- !app_assoc.
Qed.

Lemma constructed_app t1 t2 : constructed (t1 ++ t2) = constructed t1 + constructed t2.
Proof. unfold constructed. by rewrite filter_app, length_app. Qed.

(** C3, as the code has it.  When the port of the channel is missing,
    [createSocket] throws the configuration error synchronously (it returns
    no promise), after it has constructed the transport socket of the
    channel and set its identity, and before that socket is listened to,
    monitored or connected. *)
Theorem createSocket_missing_port channel identity config t :
  not_port (config_port config channel) = true →
  createSocket channel identity config t
  = (t ++ [new_Socket (constructed t) (ZMQType_frontend channel)
             (String_slice 5 (signature_scheme config)) (key config);
           set_identity (constructed t) identity],
     Throw (PortNotFound channel))
  ∧ constructed (createSocket channel identity config t).1 = S (constructed t)
  ∧ filter (λ c, is_connect c = true) (createSocket channel identity config t).1
    = filter (λ c, is_connect c = true) t.
Proof.
  intros Hport. rewrite createSocket_unfold. unfold formConnectionString.
  rewrite Hport. simpl. split; [done | split].
  - rewrite constructed_app. unfold constructed. simpl. lia.
  - rewrite filter_app. simpl. by rewrite app_nil_r.
Qed.

Lemma createSocket_missing_port_witness :
  createSocket shell "id" (example_config (λ _, Some 0%Z) "tcp" "127.0.0.1") []
  = ([new_Socket 0 "dealer" "sha256" "5ca1ab1e-c0da-aced-cafe-c0ffeefacade";
      set_identity 0 "id"], Throw (PortNotFound shell)).
Proof.
  refine (proj1 (createSocket_missing_port shell "id"
                   (example_config (λ _, Some 0%Z) "tcp" "127.0.0.1") [] _)).
  reflexivity.
Defined.

(** C3 as stated fails: with the port of shell missing, [createSocket]
    throws the configuration error, yet one transport socket has been
    constructed by then. *)
Lemma createSocket_constructs_before_resolving :
  (createSocket shell "id" (example_config (λ _, None) "tcp" "127.0.0.1") []).2
  = Throw (PortNotFound shell)
  ∧ constructed (createSocket shell "id" (example_config (λ _, None) "tcp" "127.0.0.1") []).1
    ≠ constructed [].
Proof. split; [reflexivity | vm_compute; discriminate]. Qed.

(** With only the port of iopub missing, [createSockets] fails after four
    sockets have been constructed and three of them told to connect. *)
Example createSockets_iopub_port_missing :
  let config := example_config (λ c, if decide (c = iopub) then None else Some 5555%Z)
                               "tcp" "127.0.0.1" in
  (createSockets_calls config "id" []).2 = Throw (PortNotFound iopub)
  ∧ constructed (createSockets_calls config "id" []).1 = 4
  ∧ length (filter (λ c, is_connect c = true) (createSockets_calls config "id" []).1) = 3.
Proof. vm_compute. done. Qed.

(** ** The sink of the multiplexer *)

Section Sink.

Variable send_throws : string → Socket → jmp.Message → bool.


(** The handler catches what [send] throws: it always returns. *)
Lemma outgoingMessages_next_returns message st :
  (outgoingMessages_next send_throws message st).2 = Return ().
Proof.
  unfold outgoingMessages_next, try_send.
  destruct message as [| |m]; try done.
  destruct (channel m) as [name|]; try done.
  case_bool_decide; try done.
  destruct (sockets st !! name) as [socket|]; try done.
  destruct (Socket_send send_throws _ _ _) as [socket' []]; done.
Qed.

Lemma Subject_next_open message st :
  isStopped st = false → Subject_next send_throws message st = (outgoingMessages_next send_throws message st).1.
Proof.
  intros Hopen. unfold Subject_next. rewrite Hopen.
  pose proof (outgoingMessages_next_returns message st) as Hret.
  destruct (outgoingMessages_next send_throws message st) as [st' []]; simpl in *; congruence.
Qed.

(** A message without a usable channel tag. *)
Lemma next_no_channel m st :
  channel m = None ∨ channel m = Some "" →
  outgoingMessages_next send_throws (object m) st
  = (log (console_warn "message sent without a channel" (object m)) st, Return ()).
Proof.
  unfold outgoingMessages_next. intros [-> | ->]; done.
Qed.

(** A message tagged with a channel that has no socket. *)
Lemma next_unknown_channel m name st :
  channel m = Some name → name ≠ "" → sockets st !! name = None →
  outgoingMessages_next send_throws (object m) st
  = (log (console_warn "channel not understood for message" (object m)) st, Return ()).
Proof.
  unfold outgoingMessages_next. intros -> Hne ->.
  by rewrite bool_decide_eq_false_2.
Qed.

(** A message tagged with a channel that has a socket. *)
Lemma next_known_channel m name socket st :
  channel m = Some name → name ≠ "" → sockets st !! name = Some socket →
  (outgoingMessages_next send_throws (object m) st).1
  = let jMessage := jMessage_of m (session_header st) in
    let sent_to := with_sockets st (<[name := (Socket_send send_throws name jMessage socket).1]> (sockets st)) in
    if send_throws name socket jMessage
    then log (console_error "Error sending message" TransportError (object m)) sent_to
    else sent_to.
Proof.
  unfold outgoingMessages_next, try_send, Socket_send.
  intros -> Hne ->. rewrite bool_decide_eq_false_2 by done.
  by destruct (send_throws _ _ _).
Qed.

Lemma channel_names_nonempty name : name ∈ channel_names → name ≠ "".
Proof.
  intros Hin ->. revert Hin.
  apply (bool_decide_unpack ("" ∉ channel_names)). vm_compute. exact I.
Qed.

Lemma Subject_next_send m name socket st :
  isStopped st = false →
  channel m = Some name → name ≠ "" → sockets st !! name = Some socket →
  ∃ socket',
    sockets (Subject_next send_throws (object m) st) !! name = Some socket'
    ∧ send_calls socket' = send_calls socket ++ [jMessage_of m (session_header st)]
    ∧ sent socket' = (if send_throws name socket (jMessage_of m (session_header st))
                      then sent socket
                      else sent socket ++ [jMessage_of m (session_header st)]).
Proof.
  intros Hopen Hch Hne Hsock.
  rewrite (Subject_next_open _ _ Hopen), (next_known_channel _ _ _ _ Hch Hne Hsock).
  unfold Socket_send. simpl.
  destruct (send_throws _ _ _); simpl; rewrite lookup_insert_eq; eauto.
Qed.

Lemma spread_session m filler :
  spread (header m) (HeaderFiller_object filler) !! "session" = Some (JSString (session filler))
  ∧ spread (header m) (HeaderFiller_object filler) !! "username"
    = Some (JSString (username filler)).
Proof.
  unfold spread, HeaderFiller_object. split.
  - apply lookup_union_Some_l. by rewrite lookup_insert_eq.
  - apply lookup_union_Some_l. rewrite lookup_insert_ne by done.
    by rewrite lookup_singleton_eq.
Qed.

(** C1.  A message sent through the open sink with one of the four channel
    names as its tag, for which the multiplexer has a socket, is handed to
    [send] of that socket with the [session] and [username] of its header
    equal to those of the header of the multiplexer, whatever the header
    of the message held. *)
Theorem outgoing_header_is_session_header m name socket st :
  isStopped st = false →
  channel m = Some name → name ∈ channel_names → sockets st !! name = Some socket →
  ∃ socket' jMessage,
    sockets (Subject_next send_throws (object m) st) !! name = Some socket'
    ∧ send_calls socket' = send_calls socket ++ [jMessage]
    ∧ jmp.header jMessage !! "session" = Some (JSString (session (session_header st)))
    ∧ jmp.header jMessage !! "username" = Some (JSString (username (session_header st))).
Proof.
  intros Hopen Hch Hin Hsock.
  destruct (Subject_next_send m name socket st Hopen Hch (channel_names_nonempty _ Hin) Hsock)
    as (socket' & Hlook & Hcalls & _).
  exists socket', (jMessage_of m (session_header st)).
  destruct (spread_session m (session_header st)). done.
Qed.

(** C9.  The message handed to [send] has the parent header, content,
    metadata and buffers of the message of the caller. *)
Theorem outgoing_payload_unchanged m name socket st :
  isStopped st = false →
  channel m = Some name → name ∈ channel_names → sockets st !! name = Some socket →
  ∃ socket' jMessage,
    sockets (Subject_next send_throws (object m) st) !! name = Some socket'
    ∧ send_calls socket' = send_calls socket ++ [jMessage]
    ∧ jmp.parent_header jMessage = parent_header m
    ∧ jmp.content jMessage = content m
    ∧ jmp.metadata jMessage = metadata m
    ∧ jmp.buffers jMessage = buffers m
    ∧ ∀ k, k ≠ "session" → k ≠ "username" → jmp.header jMessage !! k = header m !! k.
Proof.
  intros Hopen Hch Hin Hsock.
  destruct (Subject_next_send m name socket st Hopen Hch (channel_names_nonempty _ Hin) Hsock)
    as (socket' & Hlook & Hcalls & _).
  exists socket', (jMessage_of m (session_header st)).
  repeat split; try done.
  intros k Hs Hu. simpl. unfold spread, HeaderFiller_object.
  apply lookup_union_r. rewrite lookup_insert_ne by done.
  by apply lookup_singleton_ne.
Qed.

(** The console is written to and never read: what the subject does
    next depends on the rest of its state only. *)
Lemma step_channel_state a st1 st2 :
  channel_state st1 = channel_state st2 →
  channel_state (step send_throws st1 a) = channel_state (step send_throws st2 a).
Proof.
  destruct st1 as [s1 h1 b1 n1 c1], st2 as [s2 h2 b2 n2 c2].
  unfold channel_state; simpl. intros [= -> -> -> ->].
  destruct a as [v| | |]; simpl.
  - unfold Subject_next; simpl. destruct b2; [done|].
    unfold outgoingMessages_next, try_send; simpl.
    destruct v as [| |m]; try done.
    destruct (channel m) as [name|]; try done.
    case_bool_decide; try done.
    destruct (s2 !! name) as [socket|]; try done.
    destruct (Socket_send send_throws _ _ _) as [socket' []]; done.
  - unfold Subject_complete; simpl. destruct b2; done.
  - unfold Subject_subscribe; simpl. destruct n2; done.
  - unfold Subject_unsubscribe; simpl. destruct n2 as [|[|n2]]; done.
Qed.

Lemma run_channel_state actions st1 st2 :
  channel_state st1 = channel_state st2 →
  channel_state (run send_throws actions st1) = channel_state (run send_throws actions st2).
Proof.
  revert st1 st2. induction actions as [|a actions IH]; intros st1 st2 Hst; [done|].
  simpl. apply IH. by apply step_channel_state.
Qed.

Lemma log_channel_state c st : channel_state (log c st) = channel_state st.
Proof. done. Qed.


(** C10.  When the value given to the sink is null or undefined, the
    handler warns and returns without throwing, on the path a message
    without a channel takes; the sink stays open and later actions are
    not affected. *)
Theorem null_message_dropped v st :
  isStopped st = false → v = undefined ∨ v = null →
  outgoingMessages_next send_throws v st
  = (log (console_warn "message sent without a channel" v) st, Return ())
  ∧ (∀ m, channel m = None →
       outgoingMessages_next send_throws (object m) st
       = (log (console_warn "message sent without a channel" (object m)) st, Return ()))
  ∧ Subject_next send_throws v st = log (console_warn "message sent without a channel" v) st
  ∧ isStopped (Subject_next send_throws v st) = false
  ∧ channel_state (Subject_next send_throws v st) = channel_state st
  ∧ ∀ actions,
      channel_state (run send_throws actions (Subject_next send_throws v st))
      = channel_state (run send_throws actions st).
Proof.
  intros Hopen Hv.
  assert (outgoingMessages_next send_throws v st
          = (log (console_warn "message sent without a channel" v) st, Return ())) as Hnext.
  { by destruct Hv as [-> | ->]. }
  rewrite (Subject_next_open _ _ Hopen), Hnext. simpl.
  repeat split; try done.
  - intros m Hm. apply next_no_channel. auto.
  - intros actions. by apply run_channel_state.
Qed.

(** C7.  When [send] of the socket throws on a message, the handler
    catches and logs the error and returns; the message is not sent, the
    sink is not stopped, and the next values are handled as before: a
    later message whose [send] does not throw is sent. *)
Theorem send_error_is_caught m name socket st :
  isStopped st = false →
  channel m = Some name → name ≠ "" → sockets st !! name = Some socket →
  send_throws name socket (jMessage_of m (session_header st)) = true →
  (outgoingMessages_next send_throws (object m) st).2 = Return ()
  ∧ console (Subject_next send_throws (object m) st)
    = console st ++ [console_error "Error sending message" TransportError (object m)]
  ∧ isStopped (Subject_next send_throws (object m) st) = false
  ∧ subscribers (Subject_next send_throws (object m) st) = subscribers st
  ∧ (∃ socket',
       sockets (Subject_next send_throws (object m) st) = <[name := socket']> (sockets st)
       ∧ sent socket' = sent socket
       ∧ send_calls socket' = send_calls socket ++ [jMessage_of m (session_header st)]
       ∧ listeners socket' = listeners socket
       ∧ close_calls socket' = close_calls socket)
  ∧ (∀ v, Subject_next send_throws v (Subject_next send_throws (object m) st)
          = (outgoingMessages_next send_throws v (Subject_next send_throws (object m) st)).1)
  ∧ (∀ m2 name2 socket2,
       channel m2 = Some name2 → name2 ≠ "" →
       sockets (Subject_next send_throws (object m) st) !! name2 = Some socket2 →
       send_throws name2 socket2 (jMessage_of m2 (session_header st)) = false →
       ∃ socket2',
         sockets (Subject_next send_throws (object m2) (Subject_next send_throws (object m) st))
           !! name2 = Some socket2'
         ∧ sent socket2' = sent socket2 ++ [jMessage_of m2 (session_header st)]).
Proof.
  intros Hopen Hch Hne Hsock Hthrows.
  split; [apply outgoingMessages_next_returns|].
  rewrite (Subject_next_open _ _ Hopen), (next_known_channel _ _ _ _ Hch Hne Hsock).
  simpl. rewrite Hthrows.
  set (st' := log _ _).
  assert (isStopped st' = false) as Hopen' by done.
  repeat split; try done.
  - eexists. split; [reflexivity|]. unfold Socket_send. by rewrite Hthrows.
  - intros v. by apply Subject_next_open.
  - intros m2 name2 socket2 Hch2 Hne2 Hsock2 Hok.
    destruct (Subject_next_send m2 name2 socket2 st' Hopen' Hch2 Hne2 Hsock2)
      as (socket2' & Hlook & _ & Hsent).
    exists socket2'. split; [done|].
    change (session_header st') with (session_header st) in Hsent.
    by rewrite Hok in Hsent.
Qed.

End Sink.

(** ** Teardown *)

Section Teardown.

Variable send_throws : string → Socket → jmp.Message → bool.








End Teardown.

(** ** The source of the multiplexer *)

Lemma incoming_lookup name body :
  incoming name body !! "channel" = Some (JSString name)
  ∧ incoming name body !! "idents" = None
  ∧ ∀ k, k ≠ "channel" → k ≠ "idents" → incoming name body !! k = body !! k.
Proof.
  unfold incoming. repeat split.
  - rewrite lookup_delete_ne by done. apply lookup_insert_eq.
  - apply lookup_delete_eq.
  - intros k Hc Hi. rewrite lookup_delete_ne by done. by rewrite lookup_insert_ne.
Qed.

(** The first subscriber has the handler of the source attached to every
    socket. *)
Lemma Subject_subscribe_first st name socket :
  subscribers st = 0 → sockets st !! name = Some socket →
  sockets (Subject_subscribe st) !! name = Some (Socket_on_message socket)
  ∧ fromEvent_message ∈ listeners (Socket_on_message socket)
  ∧ subscribers (Subject_subscribe st) = 1.
Proof.
  intros Hn Hsock. unfold Subject_subscribe. rewrite Hn. simpl.
  rewrite lookup_fmap, Hsock. repeat split. set_solver.
Qed.

(** C8.  A message event of a socket the source listens to reaches every
    subscriber as a message whose [channel] is the name of that socket and
    which has no [idents]; every other property is that of the event. *)
Theorem incoming_message_tagged name socket body st :
  sockets st !! name = Some socket → fromEvent_message ∈ listeners socket →
  Socket_emit_message name body st = replicate (subscribers st) (incoming name body)
  ∧ (∀ msg, msg ∈ Socket_emit_message name body st →
       msg !! "channel" = Some (JSString name)
       ∧ msg !! "idents" = None
       ∧ ∀ k, k ≠ "channel" → k ≠ "idents" → msg !! k = body !! k).
Proof.
  intros Hsock Hlisten.
  assert (Socket_emit_message name body st = replicate (subscribers st) (incoming name body))
    as Hemit.
  { unfold Socket_emit_message. rewrite Hsock. by rewrite bool_decide_eq_true_2. }
  split; [done|]. rewrite Hemit. intros msg [-> _]%elem_of_replicate.
  apply incoming_lookup.
Qed.

(** ** The properties at concrete inputs *)

Lemma outgoing_header_is_session_header_witness :
  ∃ socket' jMessage,
    sockets (Subject_next never_throws (object (example_message (Some "shell")))
               example_channels) !! "shell" = Some socket'
    ∧ send_calls socket' = send_calls fresh_socket ++ [jMessage]
    ∧ jmp.header jMessage !! "session"
      = Some (JSString "bf6e2cc6-84f5-4c2f-aa0c-6e6d0ac2c3b1")
    ∧ jmp.header jMessage !! "username" = Some (JSString "rgbkrk").
Proof.
  apply (outgoing_header_is_session_header never_throws
           (example_message (Some "shell")) "shell" fresh_socket example_channels).
  - reflexivity.
  - reflexivity.
  - apply (bool_decide_unpack _). vm_compute. exact I.
  - vm_compute. reflexivity.
Defined.

Lemma outgoing_payload_unchanged_witness :
  ∃ socket' jMessage,
    sockets (Subject_next never_throws (object (example_message (Some "shell")))
               example_channels) !! "shell" = Some socket'
    ∧ send_calls socket' = send_calls fresh_socket ++ [jMessage]
    ∧ jmp.parent_header jMessage = JSObject []
    ∧ jmp.content jMessage = JSObject [("foo", JSNumber 1)]
    ∧ jmp.metadata jMessage = JSObject []
    ∧ jmp.buffers jMessage = JSArray []
    ∧ ∀ k, k ≠ "session" → k ≠ "username" →
           jmp.header jMessage !! k = header (example_message (Some "shell")) !! k.
Proof.
  apply (outgoing_payload_unchanged never_throws
           (example_message (Some "shell")) "shell" fresh_socket example_channels).
  - reflexivity.
  - reflexivity.
  - apply (bool_decide_unpack _). vm_compute. exact I.
  - vm_compute. reflexivity.
Defined.


Lemma null_message_dropped_witness :
  Subject_next never_throws null example_channels
  = log (console_warn "message sent without a channel" null) example_channels
  ∧ isStopped (Subject_next never_throws null example_channels) = false.
Proof.
  destruct (null_message_dropped never_throws null example_channels)
    as (_ & _ & Hnext & Hopen & _).
  - reflexivity.
  - right. reflexivity.
  - exact (conj Hnext Hopen).
Defined.

Lemma send_error_is_caught_witness :
  console (Subject_next always_throws (object (example_message (Some "shell")))
             example_channels)
  = [console_error "Error sending message" TransportError
       (object (example_message (Some "shell")))]
  ∧ isStopped (Subject_next always_throws (object (example_message (Some "shell")))
                 example_channels) = false.
Proof.
  destruct (send_error_is_caught always_throws
              (example_message (Some "shell")) "shell" fresh_socket example_channels)
    as (_ & Hconsole & Hopen & _).
  - reflexivity.
  - reflexivity.
  - discriminate.
  - vm_compute. reflexivity.
  - reflexivity.
  - exact (conj Hconsole Hopen).
Defined.



Lemma incoming_message_tagged_witness :
  Socket_emit_message "iopub" {[ "idents" := JSArray [JSString "a"]; "content" := JSNull ]}
    (Subject_subscribe example_channels)
  = [ {[ "channel" := JSString "iopub"; "content" := JSNull ]} ].
Proof.
  destruct (incoming_message_tagged "iopub" (Socket_on_message fresh_socket)
              {[ "idents" := JSArray [JSString "a"]; "content" := JSNull ]}
              (Subject_subscribe example_channels)) as [Hemit _].
  - vm_compute. reflexivity.
  - apply (bool_decide_unpack _). vm_compute. exact I.
  - rewrite Hemit. vm_compute. reflexivity.
Defined.

(** ** More on the address resolver and the socket factory *)

(** X1.  Two channels of one config get the same address only when they have
    the same port. *)
Theorem formConnectionString_same_address config c1 c2 p1 p2 :
  config_port config c1 = Some p1 → p1 ≠ 0%Z →
  config_port config c2 = Some p2 → p2 ≠ 0%Z →
  (formConnectionString config c1 = formConnectionString config c2 ↔ p1 = p2).
Proof.
  intros H1 Hp1 H2 Hp2.
  rewrite (formConnectionString_present _ _ _ H1 Hp1),
    (formConnectionString_present _ _ _ H2 Hp2).
  split; [|by intros ->].
  intros [= Heq]. unfold Number_toString in Heq.
  do 4 apply String.app_inj in Heq. by apply (inj pretty).
Qed.

Lemma formConnectionString_same_address_witness :
  formConnectionString
    (example_config (λ c, if decide (c = shell) then Some 5555%Z else Some 5556%Z)
                    "tcp" "127.0.0.1") shell
  = formConnectionString
      (example_config (λ c, if decide (c = shell) then Some 5555%Z else Some 5556%Z)
                      "tcp" "127.0.0.1") iopub
  ↔ 5555%Z = 5556%Z.
Proof.
  apply (formConnectionString_same_address
           (example_config (λ c, if decide (c = shell) then Some 5555%Z else Some 5556%Z)
                           "tcp" "127.0.0.1") shell iopub 5555%Z 5556%Z);
    [reflexivity | lia | reflexivity | lia].
Defined.

Lemma createSocket_present channel identity config url t :
  formConnectionString config channel = Return url →
  createSocket channel identity config t
  = (t ++ socket_calls channel identity config (constructed t) url, Return (constructed t)).
Proof.
  intros Hurl. rewrite createSocket_unfold, Hurl. simpl.
  unfold socket_calls. by rewrite <- app_assoc.
Qed.

Lemma constructed_socket_calls channel identity config socket url t :
  constructed (t ++ socket_calls channel identity config socket url) = S (constructed t).
Proof. rewrite constructed_app. unfold constructed. simpl. lia. Qed.

(** X2.  When the port of the channel is there, [createSocket] constructs one
    socket, sets its identity, listens for "connect", starts monitoring and
    only then connects, to the address of the channel; the promise it
    returns is for the socket it constructed. *)
Theorem createSocket_connects channel identity config p t :
  config_port config channel = Some p → p ≠ 0%Z →
  createSocket channel identity config t
  = (t ++ [new_Socket (constructed t) (ZMQType_frontend channel)
             (String_slice 5 (signature_scheme config)) (key config);
           set_identity (constructed t) identity;
           on (constructed t) "connect";
           monitor (constructed t);
           connect (constructed t)
             (transport config +:+ "://" +:+ ip config
              +:+ (if bool_decide (transport config = "tcp") then ":" else "-")
              +:+ Number_toString p)],
     Return (constructed t)).
Proof.
  intros Hport Hp.
  by rewrite (createSocket_present _ _ _ _ _ (formConnectionString_present _ _ _ Hport Hp)).
Qed.

Lemma createSocket_connects_witness :
  createSocket iopub "id" (example_config (λ _, Some 5555%Z) "ipc" "/tmp/x") []
  = ([new_Socket 0 "sub" "sha256" "5ca1ab1e-c0da-aced-cafe-c0ffeefacade";
      set_identity 0 "id"; on 0 "connect"; monitor 0; connect 0 "ipc:///tmp/x-5555"],
     Return 0).
Proof.
  refine (createSocket_connects iopub "id"
            (example_config (λ _, Some 5555%Z) "ipc" "/tmp/x") 5555%Z [] _ _);
    [reflexivity | lia].
Defined.

Lemma substring_all s : String.substring 0 (String.length s) s = s.
Proof. induction s as [|a s IH]; simpl; [done | by rewrite IH]. Qed.

Lemma String_slice_prefix prefix s :
  String_slice (String.length prefix) (prefix +:+ s) = s.
Proof.
  unfold String_slice. induction prefix as [|a prefix IH]; simpl.
  - rewrite Nat.sub_0_r. apply substring_all.
  - apply IH.
Qed.

(** X3.  The digest a socket is constructed with is what follows the first five
    characters of the signature scheme, whatever these characters are. *)
Theorem createSocket_digest channel identity config t prefix digest :
  signature_scheme config = prefix +:+ digest → String.length prefix = 5 →
  ∃ rest,
    (createSocket channel identity config t).1
    = t ++ new_Socket (constructed t) (ZMQType_frontend channel) digest (key config) :: rest.
Proof.
  intros Hscheme Hlen. rewrite createSocket_unfold, Hscheme. simpl.
  rewrite <- Hlen, String_slice_prefix.
  destruct (formConnectionString config channel); simpl; eauto.
  rewrite <- app_assoc. simpl. eauto.
Qed.

Lemma createSocket_digest_witness :
  ∃ rest,
    (createSocket shell "id" (example_config (λ _, Some 5555%Z) "tcp" "127.0.0.1") []).1
    = [] ++ new_Socket 0 "dealer" "sha256" "5ca1ab1e-c0da-aced-cafe-c0ffeefacade" :: rest.
Proof.
  apply (createSocket_digest shell "id"
           (example_config (λ _, Some 5555%Z) "tcp" "127.0.0.1") [] "hmac-" "sha256");
    reflexivity.
Defined.

(** ** Creating the four sockets *)

Lemma createSockets_begin_connects config identity url t :
  (∀ c, formConnectionString config c = Return (url c)) →
  createSockets_begin config identity t
  = (t ++ socket_calls shell identity config (constructed t) (url shell)
       ++ socket_calls control identity config (1 + constructed t) (url control)
       ++ socket_calls stdin identity config (2 + constructed t) (url stdin)
       ++ socket_calls iopub identity config (3 + constructed t) (url iopub),
     Return {| shell_socket := constructed t; control_socket := 1 + constructed t;
               stdin_socket := 2 + constructed t; iopub_socket := 3 + constructed t |}).
Proof.
  intros Hurl. unfold createSockets_begin, mbind, Jmp_bind, jbind, mret, Jmp_ret, jret.
  rewrite (createSocket_present _ _ _ _ _ (Hurl shell)).
  rewrite (createSocket_present _ _ _ _ _ (Hurl control)), constructed_socket_calls.
  rewrite (createSocket_present _ _ _ _ _ (Hurl stdin)), !constructed_socket_calls.
  rewrite (createSocket_present _ _ _ _ _ (Hurl iopub)), !constructed_socket_calls.
  by rewrite <- !app_assoc.
Qed.

(** X4.  With every port there, [createSockets] makes the sockets of shell,
    control, stdin and iopub in this order, three dealers and one
    subscriber with one identity, digest and key, each told to connect to
    the address of its channel; nothing is subscribed yet and the promise it
    returns is pending. *)
Theorem createSockets_pending config subscription identity url t :
  (∀ c, formConnectionString config c = Return (url c)) →
  createSockets config subscription identity t
  = {| calls := t ++ socket_calls shell identity config (constructed t) (url shell)
                 ++ socket_calls control identity config (1 + constructed t) (url control)
                 ++ socket_calls stdin identity config (2 + constructed t) (url stdin)
                 ++ socket_calls iopub identity config (3 + constructed t) (url iopub);
       later_calls := [];
       awaited := Some {| shell_socket := constructed t;
                          control_socket := 1 + constructed t;
                          stdin_socket := 2 + constructed t;
                          iopub_socket := 3 + constructed t |};
       topic := subscription;
       connected := [];
       outcome := Pending |}.
Proof.
  intros Hurl. unfold createSockets.
  by rewrite (createSockets_begin_connects _ _ _ _ Hurl).
Qed.

Lemma createSockets_pending_witness :
  outcome (createSockets (example_config (λ _, Some 5555%Z) "tcp" "127.0.0.1") "" "id" [])
  = Pending.
Proof.
  rewrite (createSockets_pending (example_config (λ _, Some 5555%Z) "tcp" "127.0.0.1")
             "" "id" (λ _, "tcp://127.0.0.1:5555") []).
  - reflexivity.
  - intros c. destruct c; vm_compute; reflexivity.
Defined.

Lemma formConnectionString_ok config channel :
  not_port (config_port config channel) = false →
  ∃ url, formConnectionString config channel = Return url.
Proof. unfold formConnectionString. intros ->. eauto. Qed.

Lemma formConnectionString_missing config channel :
  not_port (config_port config channel) = true →
  formConnectionString config channel = Throw (PortNotFound channel).
Proof. unfold formConnectionString. by intros ->. Qed.

Lemma createSocket_missing channel identity config t :
  not_port (config_port config channel) = true →
  createSocket channel identity config t
  = (t ++ [new_Socket (constructed t) (ZMQType_frontend channel)
             (String_slice 5 (signature_scheme config)) (key config);
           set_identity (constructed t) identity],
     Throw (PortNotFound channel)).
Proof.
  intros Hport. by rewrite createSocket_unfold, (formConnectionString_missing _ _ Hport).
Qed.

Lemma connects_app t1 t2 : connects (t1 ++ t2) = connects t1 + connects t2.
Proof. unfold connects. by rewrite filter_app, length_app. Qed.

Ltac count_calls :=
  rewrite ?constructed_app, ?connects_app; unfold constructed, connects; simpl; lia.

(** X5.  [createSockets] is rejected with the error of the first channel, in
    the order shell, control, stdin, iopub, whose port is missing.  By then
    a socket has been constructed for that channel and for each channel
    before it, and those before it have been told to connect. *)
Theorem createSockets_first_missing_port config subscription identity t before channel after :
  creation_order = before ++ channel :: after →
  Forall (λ c, not_port (config_port config c) = false) before →
  not_port (config_port config channel) = true →
  outcome (createSockets config subscription identity t) = Rejected (PortNotFound channel)
  ∧ awaited (createSockets config subscription identity t) = None
  ∧ constructed (calls (createSockets config subscription identity t))
    = constructed t + S (length before)
  ∧ connects (calls (createSockets config subscription identity t))
    = connects t + length before.
Proof.
  intros Horder Hbefore Hmissing.
  unfold createSockets, createSockets_begin, mbind, Jmp_bind, jbind.
  unfold creation_order in Horder.
  destruct before as [|c1 [|c2 [|c3 [|c4 before]]]]; simpl in Horder; simplify_eq.
  - rewrite (createSocket_missing _ _ _ _ Hmissing). simpl.
    repeat split; count_calls.
  - apply Forall_cons in Hbefore as [[u1 H1]%formConnectionString_ok _].
    rewrite (createSocket_present _ _ _ _ _ H1), (createSocket_missing _ _ _ _ Hmissing).
    simpl. repeat split; count_calls.
  - apply Forall_cons in Hbefore as [[u1 H1]%formConnectionString_ok Hbefore].
    apply Forall_cons in Hbefore as [[u2 H2]%formConnectionString_ok _].
    rewrite (createSocket_present _ _ _ _ _ H1), (createSocket_present _ _ _ _ _ H2),
      (createSocket_missing _ _ _ _ Hmissing).
    simpl. repeat split; count_calls.
  - apply Forall_cons in Hbefore as [[u1 H1]%formConnectionString_ok Hbefore].
    apply Forall_cons in Hbefore as [[u2 H2]%formConnectionString_ok Hbefore].
    apply Forall_cons in Hbefore as [[u3 H3]%formConnectionString_ok _].
    rewrite (createSocket_present _ _ _ _ _ H1), (createSocket_present _ _ _ _ _ H2),
      (createSocket_present _ _ _ _ _ H3), (createSocket_missing _ _ _ _ Hmissing).
    simpl. repeat split; count_calls.
  - destruct before; discriminate.
Qed.

Lemma createSockets_first_missing_port_witness :
  outcome (createSockets
             (example_config (λ c, if decide (c = stdin) then None else Some 5555%Z)
                             "tcp" "127.0.0.1") "" "id" [])
  = Rejected (PortNotFound stdin)
  ∧ constructed (calls (createSockets
             (example_config (λ c, if decide (c = stdin) then None else Some 5555%Z)
                             "tcp" "127.0.0.1") "" "id" [])) = 3.
Proof.
  destruct (createSockets_first_missing_port
              (example_config (λ c, if decide (c = stdin) then None else Some 5555%Z)
                              "tcp" "127.0.0.1") "" "id" [] [shell; control] stdin [iopub])
    as (Hout & _ & Hmade & _).
  - reflexivity.
  - repeat constructor.
  - reflexivity.
  - exact (conj Hout Hmade).
Defined.

(** ** Waiting for the four connections *)

Lemma all_connected_true four l :
  all_connected four l = true
  ↔ shell_socket four ∈ l ∧ control_socket four ∈ l
    ∧ stdin_socket four ∈ l ∧ iopub_socket four ∈ l.
Proof.
  unfold all_connected. rewrite !andb_true_iff, !bool_decide_eq_true. tauto.
Qed.

Lemma all_connected_cons four x l :
  all_connected four l = true → all_connected four (x :: l) = true.
Proof. rewrite !all_connected_true. set_solver. Qed.

Lemma emit_connect_inv four st x :
  creation_inv four st →
  creation_inv four (emit_connect st x)
  ∧ calls (emit_connect st x) = calls st
  ∧ topic (emit_connect st x) = topic st
  ∧ ∀ y, y ∈ connected (emit_connect st x)
         ↔ (y = x ∧ on x "connect" ∈ calls st) ∨ y ∈ connected st.
Proof.
  intros [Hawait Hinv]. unfold emit_connect. case_bool_decide as Hon.
  2: { repeat split; try done; [by right | by intros [[_ ?]|?]]. }
  assert (∀ later, filter (λ c, is_zmq_subscribe c = true) (later ++ [unmonitor x])
                   = filter (λ c, is_zmq_subscribe c = true) later) as Hfilter.
  { intros later. rewrite filter_app. simpl. by rewrite app_nil_r. }
  destruct (all_connected four (connected st)) eqn:Hall.
  - destruct Hinv as [Hout Hsubs]. rewrite Hout. simpl.
    unfold creation_inv, subscribes. simpl.
    rewrite (all_connected_cons _ _ _ Hall), Hfilter.
    repeat split; try done; set_solver.
  - destruct Hinv as [Hout Hsubs]. rewrite Hout, Hawait.
    destruct (all_connected four (x :: connected st)) eqn:Hall';
      unfold creation_inv, subscribes; simpl; rewrite Hall'.
    + rewrite filter_app, Hfilter. unfold subscribes in Hsubs. rewrite Hsubs. simpl.
      repeat split; try done; set_solver.
    + rewrite Hfilter. repeat split; try done; set_solver.
Qed.

Lemma connect_events_inv four events st :
  creation_inv four st →
  creation_inv four (foldl emit_connect st events)
  ∧ calls (foldl emit_connect st events) = calls st
  ∧ topic (foldl emit_connect st events) = topic st
  ∧ ∀ y, y ∈ connected (foldl emit_connect st events)
         ↔ (y ∈ events ∧ on y "connect" ∈ calls st) ∨ y ∈ connected st.
Proof.
  revert st. induction events as [|x events IH]; intros st Hinv; simpl.
  - do 3 (split; [done|]). intros y. split; [by right|].
    intros [[[]%elem_of_nil _]|?]; done.
  - destruct (emit_connect_inv four st x Hinv) as (Hinv' & Hcalls & Htopic & Hconn).
    destruct (IH _ Hinv') as (Hinv'' & Hcalls' & Htopic' & Hconn').
    split; [done|]. do 2 (split; [congruence|]). intros y. split.
    + intros Hy. apply Hconn' in Hy as [[Hy Hon]|Hy].
      * left. rewrite Hcalls in Hon. set_solver.
      * apply Hconn in Hy. set_solver.
    + intros Hy. apply Hconn'. rewrite Hcalls.
      destruct Hy as [[[->|Hy]%elem_of_cons Hon]|Hy].
      * right. apply Hconn. by left.
      * by left.
      * right. apply Hconn. by right.
Qed.

Lemma createSockets_inv config subscription identity url t :
  (∀ c, formConnectionString config c = Return (url c)) →
  creation_inv {| shell_socket := constructed t; control_socket := 1 + constructed t;
                  stdin_socket := 2 + constructed t; iopub_socket := 3 + constructed t |}
    (createSockets config subscription identity t)
  ∧ ∀ k, k < 4 →
      on (k + constructed t) "connect" ∈ calls (createSockets config subscription identity t).
Proof.
  intros Hurl. rewrite (createSockets_pending _ _ _ _ _ Hurl). split.
  - by split.
  - intros k Hk. simpl. unfold socket_calls.
    destruct k as [|[|[|[|k]]]]; [| | | |lia]; simpl; set_solver.
Qed.

(** X6.  While one of the four sockets has not reported "connect", whatever the
    others report and however often, the promise of [createSockets] stays
    pending and the iopub socket is not subscribed. *)
Theorem createSockets_waits_for_all config subscription identity url t events k :
  (∀ c, formConnectionString config c = Return (url c)) →
  k < 4 → k + constructed t ∉ events →
  outcome (foldl emit_connect (createSockets config subscription identity t) events) = Pending
  ∧ subscribes (foldl emit_connect (createSockets config subscription identity t) events) = [].
Proof.
  intros Hurl Hk Hnot.
  destruct (createSockets_inv config subscription identity url t Hurl) as [Hinv Hon].
  destruct (connect_events_inv _ events _ Hinv) as ([_ Hsettled] & _ & _ & Hconn).
  destruct (all_connected _ _) eqn:Hall; [|done].
  exfalso. apply all_connected_true in Hall. simpl in Hall.
  assert (k + constructed t ∈ connected
            (foldl emit_connect (createSockets config subscription identity t) events)) as Hin.
  { destruct k as [|[|[|[|k]]]]; [| | | |lia]; simpl; tauto. }
  apply Hconn in Hin as [[Hin _]|Hin]; [done|].
  rewrite (createSockets_pending _ _ _ _ _ Hurl) in Hin. simpl in Hin. set_solver.
Qed.

Lemma createSockets_waits_for_all_witness :
  outcome (foldl emit_connect
             (createSockets (example_config (λ _, Some 5555%Z) "tcp" "127.0.0.1") "" "id" [])
             [0; 1; 3; 1; 0]) = Pending.
Proof.
  refine (proj1 (createSockets_waits_for_all
                   (example_config (λ _, Some 5555%Z) "tcp" "127.0.0.1") "" "id"
                   (λ _, "tcp://127.0.0.1:5555") [] [0; 1; 3; 1; 0] 2 _ _ _)).
  - intros c. destruct c; vm_compute; reflexivity.
  - lia.
  - apply (bool_decide_unpack _). vm_compute. exact I.
Defined.

(** X7.  Once the four sockets have reported "connect", in any order and with
    any repetition, the promise of [createSockets] is fulfilled with the
    sockets under the names shell, control, stdin and iopub, and the iopub
    socket, the one of type "sub", has been subscribed to the topic exactly
    once. *)
Theorem createSockets_fulfilled config subscription identity url t events :
  (∀ c, formConnectionString config c = Return (url c)) →
  (∀ k, k < 4 → k + constructed t ∈ events) →
  outcome (foldl emit_connect (createSockets config subscription identity t) events)
  = Fulfilled {[ "shell" := constructed t; "control" := 1 + constructed t;
                 "stdin" := 2 + constructed t; "iopub" := 3 + constructed t ]}
  ∧ subscribes (foldl emit_connect (createSockets config subscription identity t) events)
    = [zmq_subscribe (3 + constructed t) subscription]
  ∧ new_Socket (3 + constructed t) "sub" (String_slice 5 (signature_scheme config))
      (key config)
    ∈ calls (foldl emit_connect (createSockets config subscription identity t) events).
Proof.
  intros Hurl Hevents.
  destruct (createSockets_inv config subscription identity url t Hurl) as [Hinv Hon].
  destruct (connect_events_inv _ events _ Hinv) as ([_ Hsettled] & Hcalls & Htopic & Hconn).
  assert (∀ k, k < 4 → k + constructed t ∈ connected
            (foldl emit_connect (createSockets config subscription identity t) events))
    as Hin.
  { intros k Hk. apply Hconn. left. auto. }
  destruct (all_connected _ _) eqn:Hall.
  - destruct Hsettled as [-> ->]. rewrite Htopic, Hcalls.
    rewrite (createSockets_pending _ _ _ _ _ Hurl). simpl.
    repeat split. unfold socket_calls. set_solver.
  - exfalso. apply not_true_iff_false in Hall. apply Hall.
    apply all_connected_true. simpl.
    repeat split; [apply (Hin 0) | apply (Hin 1) | apply (Hin 2) | apply (Hin 3)]; lia.
Qed.

Lemma createSockets_fulfilled_witness :
  subscribes (foldl emit_connect
                (createSockets (example_config (λ _, Some 5555%Z) "tcp" "127.0.0.1")
                               "kernel.status" "id" [])
                [3; 1; 0; 1; 2; 3])
  = [zmq_subscribe 3 "kernel.status"].
Proof.
  refine (proj1 (proj2 (createSockets_fulfilled
                   (example_config (λ _, Some 5555%Z) "tcp" "127.0.0.1") "kernel.status" "id"
                   (λ _, "tcp://127.0.0.1:5555") [] [3; 1; 0; 1; 2; 3] _ _))).
  - intros c. destruct c; vm_compute; reflexivity.
  - intros k Hk. destruct k as [|[|[|[|k]]]]; [| | | |lia];
      apply (bool_decide_unpack _); vm_compute; exact I.
Defined.

(** ** The user name *)

Lemma or_else_nonempty a b : b ≠ "" → or_else a b ≠ "".
Proof. intros Hb. unfold or_else. destruct a as [s|]; [case_bool_decide|]; done. Qed.

(** X9.  [getUsername] never returns the empty string. *)
Theorem getUsername_nonempty env : getUsername env ≠ "".
Proof. unfold getUsername. by do 4 apply or_else_nonempty. Qed.

Lemma or_else_empty_unset (env : gmap string string) k j b :
  or_else (<[k := ""]> env !! j) b = or_else (delete k env !! j) b.
Proof.
  destruct (decide (k = j)) as [->|Hne].
  - by rewrite lookup_insert_eq, lookup_delete_eq.
  - by rewrite lookup_insert_ne, lookup_delete_ne.
Qed.

(** X10.  A variable of the environment that is set to the empty string counts
    as not set. *)
Theorem getUsername_empty_is_unset env k :
  getUsername (<[k := ""]> env) = getUsername (delete k env).
Proof. unfold getUsername. by rewrite !or_else_empty_unset. Qed.

(** X11.  The user name is the value of the first of LOGNAME, USER, LNAME and
    USERNAME that is set and not empty. *)
Theorem getUsername_first_set (env : gmap string string) before k after u :
  ["LOGNAME"; "USER"; "LNAME"; "USERNAME"] = before ++ k :: after →
  Forall (λ j, env !! j = None ∨ env !! j = Some "") before →
  env !! k = Some u → u ≠ "" →
  getUsername env = u.
Proof.
  intros Horder Hbefore Hk Hu.
  assert (∀ j b, (env !! j = None ∨ env !! j = Some "") → or_else (env !! j) b = b) as Hskip.
  { intros j b [-> | ->]; done. }
  assert (∀ b, or_else (env !! k) b = u) as Htake.
  { intros b. rewrite Hk. simpl. by rewrite bool_decide_eq_false_2. }
  unfold getUsername.
  destruct before as [|j1 [|j2 [|j3 [|j4 before]]]]; simpl in Horder; simplify_eq.
  - apply Htake.
  - apply Forall_cons in Hbefore as [H1 _]. by rewrite (Hskip _ _ H1).
  - apply Forall_cons in Hbefore as [H1 Hbefore]. apply Forall_cons in Hbefore as [H2 _].
    by rewrite (Hskip _ _ H1), (Hskip _ _ H2).
  - apply Forall_cons in Hbefore as [H1 Hbefore]. apply Forall_cons in Hbefore as [H2 Hbefore].
    apply Forall_cons in Hbefore as [H3 _].
    by rewrite (Hskip _ _ H1), (Hskip _ _ H2), (Hskip _ _ H3).
  - destruct before; discriminate.
Qed.

Lemma getUsername_first_set_witness :
  getUsername {[ "LOGNAME" := ""; "LNAME" := "kyle"; "USERNAME" := "rgbkrk" ]} = "kyle".
Proof.
  apply (getUsername_first_set _ ["LOGNAME"; "USER"] "LNAME" ["USERNAME"]).
  - reflexivity.
  - constructor; [by right|]. constructor; [by left|]. constructor.
  - reflexivity.
  - discriminate.
Defined.

(** Without any of the four variables the fallback of the classic notebook
    is returned. *)
Example getUsername_fallback : getUsername ∅ = "username".
Proof. reflexivity. Qed.

(** ** The channel of [createMainChannel] *)

Section MainChannel.

Variable send_throws : string → Socket → jmp.Message → bool.

Lemma ChannelName_str_nonempty c : ChannelName_str c ≠ "".
Proof. by destruct c. Qed.

(** X8.  Once the four sockets have connected, [createMainChannel] gives a
    subject whose sockets are those of the four channel names, and a message
    tagged with any of the four names is handed to [send] of its socket as
    the first message that socket is sent. *)
Theorem createMainChannel_routes config subscription identity url t events header c m :
  (∀ c, formConnectionString config c = Return (url c)) →
  (∀ k, k < 4 → k + constructed t ∈ events) →
  channel m = Some (ChannelName_str c) →
  ∃ ch socket',
    createMainChannel
      (foldl emit_connect (createSockets config subscription identity t) events) header
    = Fulfilled ch
    ∧ dom (sockets ch) = list_to_set channel_names
    ∧ isStopped ch = false
    ∧ sockets (Subject_next send_throws (object m) ch) !! ChannelName_str c = Some socket'
    ∧ send_calls socket' = [jMessage_of m header].
Proof.
  intros Hurl Hevents Hm.
  destruct (createSockets_fulfilled config subscription identity url t events Hurl Hevents)
    as (Hout & _ & _).
  unfold createMainChannel. rewrite Hout.
  set (ch := createMainChannelFromSockets _ header).
  assert (∃ socket, sockets ch !! ChannelName_str c = Some (connected_socket socket))
    as [socket Hsock].
  { unfold ch. simpl. rewrite lookup_fmap.
    destruct c; simpl; simplify_map_eq; eauto. }
  destruct (Subject_next_send send_throws m _ _ ch eq_refl Hm
              (ChannelName_str_nonempty c) Hsock) as (socket' & Hlook & Hcalls & _).
  exists ch, socket'. repeat split; done.
Qed.

End MainChannel.

Lemma createMainChannel_routes_witness :
  ∃ ch socket',
    createMainChannel
      (foldl emit_connect
         (createSockets (example_config (λ _, Some 5555%Z) "tcp" "127.0.0.1") "" "id" [])
         [0; 1; 2; 3]) example_header
    = Fulfilled ch
    ∧ dom (sockets ch) = list_to_set channel_names
    ∧ isStopped ch = false
    ∧ sockets (Subject_next never_throws (object (example_message (Some "control"))) ch)
        !! ChannelName_str control = Some socket'
    ∧ send_calls socket' = [jMessage_of (example_message (Some "control")) example_header].
Proof.
  apply (createMainChannel_routes never_throws
           (example_config (λ _, Some 5555%Z) "tcp" "127.0.0.1") "" "id"
           (λ _, "tcp://127.0.0.1:5555") [] [0; 1; 2; 3] example_header control
           (example_message (Some "control"))).
  - intros c. destruct c; vm_compute; reflexivity.
  - intros k Hk. destruct k as [|[|[|[|k]]]]; [| | | |lia];
      apply (bool_decide_unpack _); vm_compute; exact I.
  - reflexivity.
Defined.

(** ** What the subject keeps and never does *)

Section Invariants.

Variable send_throws : string → Socket → jmp.Message → bool.

(** What [Subject_next] does to the sockets: at most the socket the message
    is tagged with changes, by one more call of [send]. *)
Lemma Subject_next_sockets v st :
  sockets (Subject_next send_throws v st) = sockets st
  ∨ ∃ m name socket,
      v = object m ∧ channel m = Some name ∧ name ≠ "" ∧ isStopped st = false
      ∧ sockets st !! name = Some socket
      ∧ sockets (Subject_next send_throws v st)
        = <[name := (Socket_send send_throws name (jMessage_of m (session_header st)) socket).1]>
            (sockets st).
Proof.
  destruct (isStopped st) eqn:Hopen.
  { left. unfold Subject_next. by rewrite Hopen. }
  rewrite (Subject_next_open _ _ _ Hopen).
  destruct v as [| |m]; [by left | by left |].
  destruct (channel m) as [name|] eqn:Hch.
  2: { left. rewrite next_no_channel by auto. done. }
  destruct (decide (name = "")) as [->|Hne].
  { left. rewrite next_no_channel by auto. done. }
  destruct (sockets st !! name) as [socket|] eqn:Hsock.
  2: { left. by rewrite (next_unknown_channel _ _ _ _ Hch Hne Hsock). }
  right. exists m, name, socket. repeat split; try done.
  rewrite (next_known_channel _ _ _ _ _ Hch Hne Hsock). simpl.
  by destruct (send_throws _ _ _).
Qed.

Lemma Subject_next_header v st :
  session_header (Subject_next send_throws v st) = session_header st
  ∧ subscribers (Subject_next send_throws v st) = subscribers st.
Proof.
  unfold Subject_next. destruct (isStopped st); [done|].
  unfold outgoingMessages_next, try_send.
  destruct v as [| |m]; try done.
  destruct (channel m) as [name|]; try done.
  case_bool_decide; try done.
  destruct (sockets st !! name) as [socket|]; try done.
  by destruct (Socket_send send_throws _ _ _) as [socket' []].
Qed.

Lemma step_keeps a st :
  dom (sockets (step send_throws st a)) = dom (sockets st)
  ∧ session_header (step send_throws st a) = session_header st.
Proof.
  destruct a as [v| | |]; simpl.
  - split; [|apply Subject_next_header].
    destruct (Subject_next_sockets v st)
      as [-> | (m & name & socket & _ & _ & _ & _ & Hsock & ->)]; [done|].
    apply dom_insert_lookup_L. eauto.
  - unfold Subject_complete, outgoingMessages_complete.
    destruct (isStopped st); [done|]. simpl. by rewrite dom_fmap_L.
  - unfold Subject_subscribe. destruct (subscribers st); [|done].
    simpl. by rewrite dom_fmap_L.
  - unfold Subject_unsubscribe. destruct (subscribers st) as [|[|n]]; try done.
    simpl. by rewrite dom_fmap_L.
Qed.

(** X12.  Whatever is done with the subject, it keeps the sockets it was created
    with, under the same names, and the same session header. *)
Theorem run_keeps_sockets actions st :
  dom (sockets (run send_throws actions st)) = dom (sockets st)
  ∧ session_header (run send_throws actions st) = session_header st.
Proof.
  revert st. induction actions as [|a actions IH]; intros st; [done|].
  destruct (step_keeps a st) as [Hdom Hheader].
  destruct (IH (step send_throws st a)) as [Hdom' Hheader'].
  change (run send_throws (a :: actions) st)
    with (run send_throws actions (step send_throws st a)).
  split; congruence.
Qed.

(** X13.  Sending a message leaves every socket other than the one of its
    channel as it was. *)
Theorem next_leaves_other_sockets m other st :
  channel m ≠ Some other →
  sockets (Subject_next send_throws (object m) st) !! other = sockets st !! other.
Proof.
  intros Hother.
  destruct (Subject_next_sockets (object m) st)
    as [-> | (m' & name & socket & [= <-] & Hch & _ & _ & _ & ->)]; [done|].
  apply lookup_insert_ne. congruence.
Qed.

Lemma Socket_send_calls name jMessage socket :
  send_calls (Socket_send send_throws name jMessage socket).1
  = send_calls socket ++ [jMessage].
Proof. unfold Socket_send. by destruct (send_throws _ _ _). Qed.

Lemma step_stamped filler a st :
  session_header st = filler →
  map_Forall (λ _ socket, Forall (stamped filler) (send_calls socket)) (sockets st) →
  map_Forall (λ _ socket, Forall (stamped filler) (send_calls socket))
    (sockets (step send_throws st a)).
Proof.
  intros Hfiller Hinv. destruct a as [v| | |]; simpl.
  - destruct (Subject_next_sockets v st)
      as [-> | (m & name & socket & _ & _ & _ & _ & Hsock & ->)]; [done|].
    apply map_Forall_insert_2; [|done].
    rewrite Socket_send_calls. apply Forall_app. split; [exact (Hinv name socket Hsock)|].
    apply Forall_singleton. rewrite Hfiller. apply spread_session.
  - unfold Subject_complete, outgoingMessages_complete.
    destruct (isStopped st); [done|]. simpl.
    intros name socket' (socket & <- & Hsock)%lookup_fmap_Some.
    unfold teardown. simpl. destruct (has_close socket); exact (Hinv name socket Hsock).
  - unfold Subject_subscribe. destruct (subscribers st); [|done]. simpl.
    intros name socket' (socket & <- & Hsock)%lookup_fmap_Some.
    exact (Hinv name socket Hsock).
  - unfold Subject_unsubscribe. destruct (subscribers st) as [|[|n]]; try done. simpl.
    intros name socket' (socket & <- & Hsock)%lookup_fmap_Some.
    exact (Hinv name socket Hsock).
Qed.

(** X14.  If every message the sockets have been sent so far carries the session
    and user name of the multiplexer, so does every message they have been
    sent after any sequence of actions: no message leaves with another
    session or user name. *)
Theorem run_stamped actions st :
  map_Forall (λ _ socket, Forall (stamped (session_header st)) (send_calls socket))
    (sockets st) →
  map_Forall (λ _ socket, Forall (stamped (session_header st)) (send_calls socket))
    (sockets (run send_throws actions st)).
Proof.
  remember (session_header st) as filler eqn:Hfiller. symmetry in Hfiller.
  revert st Hfiller. induction actions as [|a actions IH]; intros st Hfiller Hinv; [done|].
  change (run send_throws (a :: actions) st)
    with (run send_throws actions (step send_throws st a)).
  apply IH.
  - by rewrite (proj2 (step_keeps a st)).
  - by apply step_stamped.
Qed.

Lemma calls_fmap (f : Socket → Socket) (m : gmap string Socket) :
  (∀ s, send_calls (f s) = send_calls s) → send_calls <$> (f <$> m) = send_calls <$> m.
Proof.
  intros Hf. apply map_eq; intros i; rewrite !lookup_fmap.
  destruct (m !! i); simpl; congruence.
Qed.

Lemma step_inert a st :
  isStopped st = true →
  isStopped (step send_throws st a) = true
  ∧ calls_of (step send_throws st a) = calls_of st
  ∧ console (step send_throws st a) = console st.
Proof.
  intros Hstop. destruct a as [v| | |]; simpl.
  - unfold Subject_next. by rewrite Hstop.
  - unfold Subject_complete. by rewrite Hstop.
  - unfold Subject_subscribe, calls_of. destruct (subscribers st); simpl; [|done].
    by rewrite calls_fmap.
  - unfold Subject_unsubscribe, calls_of. destruct (subscribers st) as [|[|n]]; simpl;
      try done. by rewrite calls_fmap.
Qed.

(** X15.  Once the sink has been completed it is inert: whatever is given to it
    afterwards is handed to no socket and is not reported on the console
    either. *)
Theorem stopped_sink_is_inert actions st :
  isStopped st = true →
  calls_of (run send_throws actions st) = calls_of st
  ∧ console (run send_throws actions st) = console st
  ∧ isStopped (run send_throws actions st) = true.
Proof.
  revert st. induction actions as [|a actions IH]; intros st Hstop; [done|].
  destruct (step_inert a st Hstop) as (Hstop' & Hcalls & Hconsole).
  destruct (IH _ Hstop') as (Hcalls' & Hconsole' & Hstop'').
  change (run send_throws (a :: actions) st)
    with (run send_throws actions (step send_throws st a)).
  repeat split; congruence.
Qed.

End Invariants.

Lemma next_leaves_other_sockets_witness :
  sockets (Subject_next always_throws (object (example_message (Some "shell")))
             example_channels) !! "iopub"
  = sockets example_channels !! "iopub".
Proof.
  apply (next_leaves_other_sockets always_throws (example_message (Some "shell")) "iopub"
           example_channels).
  discriminate.
Defined.

Lemma run_stamped_witness :
  map_Forall (λ _ socket, Forall (stamped example_header) (send_calls socket))
    (sockets (run never_throws
                [next (object (example_message (Some "shell"))); subscribe;
                 next (object (example_message (Some "iopub"))); complete]
                example_channels)).
Proof.
  apply (run_stamped never_throws
           [next (object (example_message (Some "shell"))); subscribe;
            next (object (example_message (Some "iopub"))); complete]
           example_channels).
  simpl. unfold four_sockets.
  repeat (apply map_Forall_insert_2; [constructor|]). apply map_Forall_empty.
Defined.

Lemma stopped_sink_is_inert_witness :
  calls_of (run never_throws [next (object (example_message (Some "shell"))); next null]
              (Subject_complete example_channels))
  = calls_of (Subject_complete example_channels)
  ∧ console (run never_throws [next (object (example_message (Some "shell"))); next null]
               (Subject_complete example_channels))
    = console (Subject_complete example_channels).
Proof.
  destruct (stopped_sink_is_inert never_throws
              [next (object (example_message (Some "shell"))); next null]
              (Subject_complete example_channels)) as (Hcalls & Hconsole & _).
  - reflexivity.
  - exact (conj Hcalls Hconsole).
Defined.

(** ** More on the sink, the source and the teardown *)

Section Edges.

Variable send_throws : string → Socket → jmp.Message → bool.

(** X16.  A message whose channel tag is the empty string is dropped as one
    without a channel, even when there is a socket under the empty name. *)
Theorem empty_channel_tag_dropped m st :
  isStopped st = false → channel m = Some "" →
  Subject_next send_throws (object m) st
  = log (console_warn "message sent without a channel" (object m)) st.
Proof.
  intros Hopen Hch. rewrite (Subject_next_open _ _ _ Hopen).
  rewrite next_no_channel by auto. done.
Qed.

(** X17.  Completing the open sink removes the listeners of every socket, calls
    [close] on the sockets that have it and on no other, leaves what the
    sockets were sent untouched, and stops the sink. *)
Theorem complete_tears_down st name socket :
  isStopped st = false → sockets st !! name = Some socket →
  ∃ socket',
    sockets (Subject_complete st) !! name = Some socket'
    ∧ listeners socket' = []
    ∧ removeAllListeners_calls socket' = S (removeAllListeners_calls socket)
    ∧ close_calls socket' = (if has_close socket then S (close_calls socket)
                             else close_calls socket)
    ∧ send_calls socket' = send_calls socket
    ∧ sent socket' = sent socket
    ∧ isStopped (Subject_complete st) = true.
Proof.
  intros Hopen Hsock. exists (teardown socket).
  unfold Subject_complete, outgoingMessages_complete. rewrite Hopen. simpl.
  rewrite lookup_fmap, Hsock. unfold teardown. simpl.
  by destruct (has_close socket).
Qed.

End Edges.

Lemma empty_channel_tag_dropped_witness :
  Subject_next never_throws (object (example_message (Some "")))
    (createMainChannelFromSockets {[ "" := fresh_socket ]} example_header)
  = log (console_warn "message sent without a channel" (object (example_message (Some ""))))
      (createMainChannelFromSockets {[ "" := fresh_socket ]} example_header).
Proof.
  apply (empty_channel_tag_dropped never_throws (example_message (Some ""))
           (createMainChannelFromSockets {[ "" := fresh_socket ]} example_header));
    reflexivity.
Defined.

Lemma complete_tears_down_witness :
  ∃ socket',
    sockets (Subject_complete
               (createMainChannelFromSockets
                  {[ "shell" := {| listeners := [listener "message" 7]; send_calls := [];
                                   sent := []; removeAllListeners_calls := 0;
                                   has_close := false; close_calls := 0 |} ]}
                  example_header)) !! "shell" = Some socket'
    ∧ listeners socket' = []
    ∧ removeAllListeners_calls socket' = 1
    ∧ close_calls socket' = 0
    ∧ send_calls socket' = []
    ∧ sent socket' = []
    ∧ isStopped (Subject_complete
               (createMainChannelFromSockets
                  {[ "shell" := {| listeners := [listener "message" 7]; send_calls := [];
                                   sent := []; removeAllListeners_calls := 0;
                                   has_close := false; close_calls := 0 |} ]}
                  example_header)) = true.
Proof.
  apply (complete_tears_down
           (createMainChannelFromSockets
              {[ "shell" := {| listeners := [listener "message" 7]; send_calls := [];
                               sent := []; removeAllListeners_calls := 0;
                               has_close := false; close_calls := 0 |} ]}
              example_header) "shell"
           {| listeners := [listener "message" 7]; send_calls := [];
              sent := []; removeAllListeners_calls := 0;
              has_close := false; close_calls := 0 |});
    reflexivity.
Defined.



Lemma filter_all {A} (P : A → Prop) `{∀ x, Decision (P x)} (l : list A) :
  Forall P l → filter P l = l.
Proof.
  induction 1 as [|x l Hx Hl IH]; [done|].
  rewrite filter_cons_True by done. by rewrite IH.
Qed.

Lemma Socket_off_on socket :
  fromEvent_message ∉ listeners socket →
  Socket_off_message (Socket_on_message socket) = socket.
Proof.
  intros Hnot. destruct socket as [ls calls s r h c]. unfold Socket_off_message,
    Socket_on_message, with_listeners. simpl in *. f_equal.
  rewrite filter_app. simpl. rewrite app_nil_r. apply filter_all.
  apply Forall_forall. intros l Hl ->. by apply Hnot.
Qed.

(** X19.  Subscribing to the source of a subject without subscribers and then
    unsubscribing leaves the subject and its sockets exactly as they were:
    no listener is left behind. *)
Theorem subscribe_unsubscribe_round_trip st :
  subscribers st = 0 →
  map_Forall (λ _ socket, fromEvent_message ∉ listeners socket) (sockets st) →
  Subject_unsubscribe (Subject_subscribe st) = st.
Proof.
  intros Hnone Hfree. destruct st as [socks filler stopped n cons]. simpl in *. subst n.
  unfold Subject_unsubscribe, Subject_subscribe, with_subscribers, with_sockets. simpl.
  f_equal. rewrite <- map_fmap_compose. rewrite <- (map_fmap_id socks) at 2.
  apply map_fmap_ext. intros name socket Hsock. simpl.
  apply Socket_off_on. by apply (Hfree name).
Qed.

Lemma subscribe_unsubscribe_round_trip_witness :
  Subject_unsubscribe (Subject_subscribe example_channels) = example_channels.
Proof.
  apply (subscribe_unsubscribe_round_trip example_channels).
  - reflexivity.
  - unfold example_channels, four_sockets. simpl.
    repeat (apply map_Forall_insert_2; [apply not_elem_of_nil|]). apply map_Forall_empty.
Defined.





